(** * ngx-restful: BaseService and RestService

    A shallow embedding of the two service classes of ngx-restful
    (base-service.ts, rest-service.ts) and of the little of JavaScript,
    RxJS and Angular's HttpClient that their bodies rely on, followed by the
    properties of the CRUD dispatch contract.

    Layout:
    - [JS]          run-time values, property reads, [||], string [+];
    - [Rx]          finite observables: [map], [catchError], [throwError], [pipe];
    - [HttpClient]  the injected transport, recording every request it is handed;
    - [Method]      method bodies as state transformers over [this];
    - [BaseService], [RestService]  the two classes, method by method;
    - the theorems. *)

From Stdlib Require Import ZArith String List Bool DecimalString Lia.
From Stdlib Require DecimalZ DecimalPos.
Import ListNotations.
Local Open Scope string_scope.
Local Open Scope list_scope.

(* ===================================================================== *)
(** ** JavaScript values *)
(* ===================================================================== *)

Module JS.

(** Run-time values.  Numbers are the integers; JavaScript's numbers agree
    with them, in value and in print, on the safe integers (below 2^53 in
    absolute value), which is where ids live.  An object is its list of own
    data properties, the first binding of a key being the property. *)
#[warnings="-register-all"]
Inductive value : Type :=
| VUndefined
| VNull
| VBool (b : bool)
| VNum (n : Z)
| VStr (s : string)
| VObj (fields : list (string * value)).

(** The result of evaluating an expression or a call: a value or a throw. *)
Inductive completion (A : Type) : Type :=
| Returns (a : A)
| Throws (e : value).
Arguments Returns {A} a.
Arguments Throws {A} e.

(** An optional parameter of a declared type, [p: A = null]: the argument is
    omitted ([Undefined]), [null], or a value of the type. *)
Inductive nullable (A : Type) : Type :=
| Undefined
| Null
| Defined (a : A).
Arguments Undefined {A}.
Arguments Null {A}.
Arguments Defined {A} a.

(** [v == null]: holds of [null] and [undefined] only. *)
Definition is_nullish (v : value) : bool :=
  match v with
  | VUndefined | VNull => true
  | _ => false
  end.

(** [v != null]. *)
Definition neq_null (v : value) : bool := negb (is_nullish v).

(** ToBoolean. *)
Definition truthy (v : value) : bool :=
  match v with
  | VUndefined | VNull => false
  | VBool b => b
  | VNum n => negb (n =? 0)%Z
  | VStr s => negb (s =? "")
  | VObj _ => true
  end.

(** [a || b]. *)
Definition or (a b : value) : value := if truthy a then a else b.

(** ToString; a plain object prints as [[object Object]]. *)
Definition to_string (v : value) : string :=
  match v with
  | VUndefined => "undefined"
  | VNull => "null"
  | VBool true => "true"
  | VBool false => "false"
  | VNum n => NilZero.string_of_int (Z.to_int n)
  | VStr s => s
  | VObj _ => "[object Object]"
  end.

(** [s + v] for a string [s]: concatenation with ToString of [v]. *)
Definition str_add (s : string) (v : value) : string := s ++ to_string v.

Fixpoint lookup (key : string) (fields : list (string * value)) : value :=
  match fields with
  | [] => VUndefined
  | (k, v) :: rest => if key =? k then v else lookup key rest
  end.

(** The TypeError raised by a property read on [null] or [undefined]. *)
Definition TypeError (key : string) (v : value) : value :=
  VObj [("name", VStr "TypeError");
        ("message", VStr ("Cannot read property '" ++ key ++ "' of " ++ to_string v))].

(** [v[key]] (and [v.key]).  Reading from [null] or [undefined] throws; a
    primitive has none of the properties read here (message, id). *)
Definition get (v : value) (key : string) : completion value :=
  match v with
  | VUndefined | VNull => Throws (TypeError key v)
  | VObj fields => Returns (lookup key fields)
  | _ => Returns VUndefined
  end.

(** Default parameter value: used when the argument is [undefined]. *)
Definition default_arg (arg dflt : value) : value :=
  match arg with
  | VUndefined => dflt
  | _ => arg
  end.

(** The same for a parameter declared [p: A = null]. *)
Definition default_null {A : Type} (arg : nullable A) : nullable A :=
  match arg with
  | Undefined => Null
  | _ => arg
  end.

End JS.
Export JS.

(* ===================================================================== *)
(** ** The transport's requests, and observables *)
(* ===================================================================== *)

Inductive verb : Type := GET | POST | PUT | DELETE.

(** What one call of an HttpClient verb hands to the transport. *)
Record request : Type := mkRequest {
  method : verb;
  url : string;
  body : option value;
  options : value
}.

(** What a subscriber is notified of: values, then completion or an error. *)
Inductive trace : Type :=
| Complete
| Error (e : value)
| Next (v : value) (rest : trace).

(** A cold observable: every subscription runs it afresh against the wire
    (the requests sent so far) and yields the subscriber's notifications. *)
Definition Observable : Type := list request -> trace * list request.

Module Rx.

Fixpoint map_trace (project : value -> value) (t : trace) : trace :=
  match t with
  | Complete => Complete
  | Error e => Error e
  | Next v rest => Next (project v) (map_trace project rest)
  end.

(** [map(project)] *)
Definition map (project : value -> value) (source : Observable) : Observable :=
  fun wire => let '(t, wire') := source wire in (map_trace project t, wire').

(** On an error the selector's observable takes over; a selector that
    throws makes the thrown value the error. *)
Fixpoint catch_trace (selector : value -> completion Observable)
    (t : trace) (wire : list request) : trace * list request :=
  match t with
  | Complete => (Complete, wire)
  | Next v rest =>
      let '(rest', wire') := catch_trace selector rest wire in (Next v rest', wire')
  | Error e =>
      match selector e with
      | Returns o => o wire
      | Throws x => (Error x, wire)
      end
  end.

(** [catchError(selector)] *)
Definition catchError (selector : value -> completion Observable)
    (source : Observable) : Observable :=
  fun wire => let '(t, wire') := source wire in catch_trace selector t wire'.

(** [throwError(e)] *)
Definition throwError (e : value) : Observable := fun wire => (Error e, wire).

(** [source.pipe(op1, op2, ...)] *)
Definition pipe (source : Observable) (ops : list (Observable -> Observable))
    : Observable :=
  fold_left (fun acc op => op acc) ops source.

End Rx.

(* ===================================================================== *)
(** ** The injected transport *)
(* ===================================================================== *)

Module HttpClient.

(** Angular's HttpClient, as far as the services use it: each verb builds a
    cold observable which, when subscribed, puts one request on the wire and
    notifies the subscriber of the back end's answer.  The answer may depend
    on the requests served before.  The verbs are modelled on the options
    Angular builds a request from; on [null], and on an [observe] it does
    not know, Angular's verbs throw at the call instead. *)
Record t : Type := mk { backend : list request -> request -> trace }.

Definition send (http : t) (r : request) : Observable :=
  fun wire => (backend http wire r, wire ++ [r]).

Definition get (http : t) (url : string) (options : value) : Observable :=
  send http (mkRequest GET url None options).

Definition post (http : t) (url : string) (body options : value) : Observable :=
  send http (mkRequest POST url (Some body) options).

Definition put (http : t) (url : string) (body options : value) : Observable :=
  send http (mkRequest PUT url (Some body) options).

Definition delete (http : t) (url : string) (options : value) : Observable :=
  send http (mkRequest DELETE url None options).

End HttpClient.

(* ===================================================================== *)
(** ** Methods *)
(* ===================================================================== *)

Module Method.

(** A method body run on an instance [this]: its completion and the
    instance as the call leaves it. *)
Definition meth (S A : Type) : Type := S -> completion A * S.

Definition ret {S A : Type} (a : A) : meth S A := fun this => (Returns a, this).

Definition bind {S A B : Type} (m : meth S A) (k : A -> meth S B) : meth S B :=
  fun this =>
    match m this with
    | (Returns a, this') => k a this'
    | (Throws e, this') => (Throws e, this')
    end.

(** Reading [this]. *)
Definition self {S : Type} : meth S S := fun this => (Returns this, this).

(** Evaluating an expression that may throw. *)
Definition eval {S A : Type} (c : completion A) : meth S A := fun this => (c, this).

(** Running an inherited method on the base-class part of the instance. *)
Definition inherited {S S' A : Type} (super : S' -> S) (set_super : S -> S' -> S')
    (m : meth S A) : meth S' A :=
  fun this => let '(c, base) := m (super this) in (c, set_super base this).

Definition read_only {S A : Type} (m : meth S A) : Prop :=
  forall this, snd (m this) = this.

End Method.
Import Method.

Declare Scope method_scope.
Delimit Scope method_scope with method.
Notation "x <- m ;; k" := (bind m (fun x => k))
  (at level 100, m at next level, right associativity) : method_scope.
Local Open Scope method_scope.

(* ===================================================================== *)
(** ** base-service.ts *)
(* ===================================================================== *)

Module BaseService.

(** An instance: the [http] field and the [handleError] the instance
    dispatches to (the class's own below, or a subclass's override). *)
Record t : Type := mk {
  this_http : HttpClient.t;
  this_handleError : value -> completion Observable
}.

(** [throwError(error.message || error)] *)
Definition handleError (error : value) : completion Observable :=
  match JS.get error "message" with
  | Returns message => Returns (Rx.throwError (JS.or message error))
  | Throws e => Throws e
  end.

(** [constructor(http)], for a subclass with or without an override of
    [handleError]. *)
Definition constructor (override : option (value -> completion Observable))
    (http : HttpClient.t) : t :=
  {| this_http := http;
     this_handleError := match override with Some h => h | None => handleError end |}.

Definition get (path : string) (options : value) : meth t Observable :=
  let options := default_arg options (VObj []) in
  this <- self ;;
  ret (Rx.pipe (HttpClient.get (this_http this) path options)
         [Rx.map (fun response => response); Rx.catchError (this_handleError this)]).

Definition post (path : string) (body options : value) : meth t Observable :=
  let options := default_arg options (VObj []) in
  this <- self ;;
  ret (Rx.pipe (HttpClient.post (this_http this) path body options)
         [Rx.map (fun response => response); Rx.catchError (this_handleError this)]).

Definition put (path : string) (body options : value) : meth t Observable :=
  let options := default_arg options (VObj []) in
  this <- self ;;
  ret (Rx.pipe (HttpClient.put (this_http this) path body options)
         [Rx.map (fun response => response); Rx.catchError (this_handleError this)]).

Definition delete (path : string) (options : value) : meth t Observable :=
  let options := default_arg options (VObj []) in
  this <- self ;;
  ret (Rx.pipe (HttpClient.delete (this_http this) path options)
         [Rx.map (fun response => response); Rx.catchError (this_handleError this)]).

End BaseService.

(* ===================================================================== *)
(** ** rest-service.ts *)
(* ===================================================================== *)

Module RestService.

(** An instance: what it inherits from BaseService, the private [headers]
    field, and the [getBaseUrlPath] of its concrete class. *)
Record t : Type := mk {
  super : BaseService.t;
  this_headers : value;
  this_getBaseUrlPath : unit -> string
}.

Definition this_http (this : t) : HttpClient.t := BaseService.this_http (super this).

Definition this_handleError (this : t) : value -> completion Observable :=
  BaseService.this_handleError (super this).

Definition set_super (base : BaseService.t) (this : t) : t :=
  {| super := base;
     this_headers := this_headers this;
     this_getBaseUrlPath := this_getBaseUrlPath this |}.

(** A concrete service class: the base path it declares and, when it has
    one, its override of [handleError]. *)
Record concrete : Type := extends {
  getBaseUrlPath : unit -> string;
  handleError : option (value -> completion Observable)
}.

(** [constructor(http)]: [super(http)], the field initialiser of
    [headers], and [this.http = http]. *)
Definition constructor (cls : concrete) (http : HttpClient.t) : t :=
  {| super := BaseService.constructor (handleError cls) http;
     this_headers := VObj [("Content-Type", VStr "application/json")];
     this_getBaseUrlPath := getBaseUrlPath cls |}.

(** [path != null ? path : this.getBaseUrlPath()] *)
Definition query (options : value) (path : nullable string) : meth t Observable :=
  let options := default_arg options (VObj []) in
  let path := default_null path in
  this <- self ;;
  let finalPath :=
    match path with
    | Defined p => p
    | _ => this_getBaseUrlPath this tt
    end in
  ret (Rx.pipe (HttpClient.get (this_http this) finalPath options)
         [Rx.map (fun response => response); Rx.catchError (this_handleError this)]).

Definition getAll (path : nullable string) : meth t Observable :=
  let path := default_null path in
  query (VObj []) path.

Definition getOne (id options : value) (path : nullable string) : meth t Observable :=
  let options := default_arg options (VObj []) in
  let path := default_null path in
  this <- self ;;
  let finalPath :=
    match path with
    | Defined p => p
    | _ => this_getBaseUrlPath this tt
    end in
  let url := (finalPath ++ (if neq_null id then str_add "/" id else ""))%string in
  ret (Rx.pipe (HttpClient.get (this_http this) url options)
         [Rx.map (fun response => response); Rx.catchError (this_handleError this)]).

Definition createOne (model options : value) (path : nullable string)
    : meth t Observable :=
  this <- self ;;
  let options := default_arg options (VObj [("headers", this_headers this)]) in
  let path := default_null path in
  let finalPath :=
    match path with
    | Defined p => p
    | _ => this_getBaseUrlPath this tt
    end in
  ret (Rx.pipe (HttpClient.post (this_http this) finalPath model options)
         [Rx.map (fun response => response); Rx.catchError (this_handleError this)]).

Definition updateOne (model options : value) (path : nullable string)
    : meth t Observable :=
  this <- self ;;
  let options := default_arg options (VObj [("headers", this_headers this)]) in
  let path := default_null path in
  let finalPath :=
    match path with
    | Defined p => p
    | _ => this_getBaseUrlPath this tt
    end in
  id <- eval (JS.get model "id") ;;
  suffix <- (if neq_null id
             then id' <- eval (JS.get model "id") ;; ret (str_add "/" id')
             else ret "") ;;
  let url := (finalPath ++ suffix)%string in
  ret (Rx.pipe (HttpClient.put (this_http this) url model options)
         [Rx.map (fun response => response); Rx.catchError (this_handleError this)]).

Definition deleteOne (id options : value) (path : nullable string)
    : meth t Observable :=
  this <- self ;;
  let options := default_arg options (VObj [("headers", this_headers this)]) in
  let path := default_null path in
  let finalPath :=
    match path with
    | Defined p => p
    | _ => this_getBaseUrlPath this tt
    end in
  let url := (finalPath ++ (if neq_null id then str_add "/" id else ""))%string in
  ret (Rx.pipe (HttpClient.delete (this_http this) url options)
         [Rx.map (fun response => response); Rx.catchError (this_handleError this)]).

(** The four verbs a resource service inherits. *)
Definition get (path : string) (options : value) : meth t Observable :=
  inherited super set_super (BaseService.get path options).

Definition post (path : string) (body options : value) : meth t Observable :=
  inherited super set_super (BaseService.post path body options).

Definition put (path : string) (body options : value) : meth t Observable :=
  inherited super set_super (BaseService.put path body options).

Definition delete (path : string) (options : value) : meth t Observable :=
  inherited super set_super (BaseService.delete path options).

End RestService.

(** A call of one of the public operations of a resource service. *)
Inductive call : Type :=
| Get (path : string) (options : value)
| Post (path : string) (body options : value)
| Put (path : string) (body options : value)
| Delete (path : string) (options : value)
| Query (options : value) (path : nullable string)
| GetAll (path : nullable string)
| GetOne (id options : value) (path : nullable string)
| CreateOne (model options : value) (path : nullable string)
| UpdateOne (model options : value) (path : nullable string)
| DeleteOne (id options : value) (path : nullable string).

Definition invoke (c : call) : meth RestService.t Observable :=
  match c with
  | Get path options => RestService.get path options
  | Post path body options => RestService.post path body options
  | Put path body options => RestService.put path body options
  | Delete path options => RestService.delete path options
  | Query options path => RestService.query options path
  | GetAll path => RestService.getAll path
  | GetOne id options path => RestService.getOne id options path
  | CreateOne model options path => RestService.createOne model options path
  | UpdateOne model options path => RestService.updateOne model options path
  | DeleteOne id options path => RestService.deleteOne id options path
  end.

Fixpoint invoke_all (cs : list call) (this : RestService.t) : RestService.t :=
  match cs with
  | [] => this
  | c :: rest => invoke_all rest (snd (invoke c this))
  end.

(* ===================================================================== *)
(** ** Vocabulary of the properties *)
(* ===================================================================== *)

(** [vs] notified in order, then [t]. *)
Fixpoint emits (vs : list value) (t : trace) : trace :=
  match vs with
  | [] => t
  | v :: rest => Next v (emits rest t)
  end.

(** The error a trace ends in, if it ends in one. *)
Fixpoint failure (t : trace) : option value :=
  match t with
  | Complete => None
  | Error e => Some e
  | Next _ rest => failure rest
  end.

(** Whether object [v] has [key] among its own properties. *)
Definition has_own (v : value) (key : string) : bool :=
  match v with
  | VObj fields => existsb (fun kv => key =? fst kv) fields
  | _ => false
  end.

(** The call returned an observable which, whenever it is subscribed, hands
    exactly [r] to the transport [http] and passes the answer on, an error
    of the answer going to [handler]. *)
Definition sends (res : completion Observable) (http : HttpClient.t)
    (handler : value -> completion Observable) (r : request) : Prop :=
  exists o, res = Returns o /\
    forall wire, o wire = Rx.catch_trace handler (HttpClient.backend http wire r) (wire ++ [r]).

(** A handler whose observables put nothing on the wire. *)
Definition quiet (handler : value -> completion Observable) : Prop :=
  forall e o wire, handler e = Returns o -> snd (o wire) = wire.

(** [Number.isSafeInteger]: the integers a JavaScript number holds exactly
    and prints in plain decimal. *)
Definition safe_integer (n : Z) : bool := (Z.abs n <? 2 ^ 53)%Z.

(** The options from which a verb of Angular's HttpClient builds its
    observable: anything but [null], unless [observe] is set to something
    other than 'body', 'events' or 'response'; on those the verb throws
    before an observable exists.  An omitted argument is accepted, the
    methods putting their default in its place. *)
Definition accepted (options : value) : bool :=
  match options with
  | VNull => false
  | VObj fields =>
      let observe := lookup "observe" fields in
      negb (truthy observe)
      || match observe with
         | VStr s => (s =? "body") || (s =? "events") || (s =? "response")
         | _ => false
         end
  | _ => true
  end.


(** A boolean, a number or a string. *)
Definition primitive (v : value) : bool :=
  match v with
  | VBool _ | VNum _ | VStr _ => true
  | _ => false
  end.

(** Subscribing [n] times in a row to one observable: what each
    subscriber is notified of, and the wire after the last. *)
Fixpoint resubscribe (n : nat) (o : Observable) (wire : list request)
    : list trace * list request :=
  match n with
  | O => ([], wire)
  | S k =>
      let '(t, wire') := o wire in
      let '(ts, wire'') := resubscribe k o wire' in
      (t :: ts, wire'')
  end.

(** Two calls ended alike: both threw the same value, or both returned
    observables that no subscription can tell apart. *)
Definition same_observable (a b : completion Observable) : Prop :=
  match a, b with
  | Returns o1, Returns o2 => forall wire, o1 wire = o2 wire
  | Throws x, Throws y => x = y
  | _, _ => False
  end.

(** The spec's [explicitPath ?? basePath()]. *)
Definition effectivePath (path : nullable string) (this : RestService.t) : string :=
  match path with
  | Defined p => p
  | _ => RestService.this_getBaseUrlPath this tt
  end.

(** The spec's [getAll]: an alias for [query({}, path)]. *)
Definition getAll_spec (path : nullable string) : meth RestService.t Observable :=
  RestService.query (VObj []) path.

(** The options literal [{headers: {'Content-Type': 'application/json'}}]. *)
Definition json_headers : value :=
  VObj [("headers", VObj [("Content-Type", VStr "application/json")])].

(** *** A concrete service, as in the README

    [ArticleService extends RestService<Article, GenericResponse>] with
    [getBaseUrlPath() { return 'api/articles'; }]; the [handleError] written
    out there repeats BaseService's, so the class is taken without an
    override.  Then a back end answering every request with one value, and
    one failing every request. *)
Definition ArticleService : RestService.concrete :=
  RestService.extends (fun _ => "api/articles") None.

Definition answering (v : value) : HttpClient.t := HttpClient.mk (fun _ _ => Next v Complete).

Definition failing (e : value) : HttpClient.t := HttpClient.mk (fun _ _ => Error e).

Definition article (id : Z) : value :=
  VObj [("id", VNum id); ("name", VStr "On proofs")].

Definition articleService : RestService.t :=
  RestService.constructor ArticleService (answering (VStr "ok")).

Definition failingService : RestService.t :=
  RestService.constructor ArticleService
    (failing (VObj [("status", VNum 500); ("message", VStr "Server Error")])).

(** A back end that knows one URL only. *)
Definition picky : HttpClient.t :=
  HttpClient.mk (fun _ r =>
    if url r =? "api/articles/check" then Next (VNum 42) Complete
    else Error (VObj [("status", VNum 404); ("message", VStr "Not Found")])).


(* ===================================================================== *)
(** ** Observables and the transport *)
(* ===================================================================== *)

Section Pipeline.

Variable handler : value -> completion Observable.

Lemma map_trace_id (t : trace) : Rx.map_trace (fun response => response) t = t.
Proof.
  induction t as [| e | v rest IH]; simpl; [reflexivity | reflexivity |].
  now rewrite IH.
Qed.

Lemma map_id (source : Observable) (wire : list request) :
  Rx.map (fun response => response) source wire = source wire.
Proof.
  unfold Rx.map. destruct (source wire) as [t wire']. now rewrite map_trace_id.
Qed.

(** The pipeline every method builds, on a request of the transport. *)
Lemma pipe_send (http : HttpClient.t) (r : request) (wire : list request) :
  Rx.pipe (HttpClient.send http r)
    [Rx.map (fun response => response); Rx.catchError handler] wire
  = Rx.catch_trace handler (HttpClient.backend http wire r) (wire ++ [r]).
Proof.
  unfold Rx.pipe; simpl. unfold Rx.catchError.
  rewrite map_id. reflexivity.
Qed.

Lemma catch_trace_emits (vs : list value) (t : trace) (wire : list request) :
  Rx.catch_trace handler (emits vs t) wire
  = (emits vs (fst (Rx.catch_trace handler t wire)),
     snd (Rx.catch_trace handler t wire)).
Proof.
  induction vs as [| v vs IH]; simpl.
  - now destruct (Rx.catch_trace handler t wire).
  - now rewrite IH.
Qed.


Lemma catch_trace_quiet (t : trace) (wire : list request) :
  quiet handler -> snd (Rx.catch_trace handler t wire) = wire.
Proof.
  intros Hq. induction t as [| e | v rest IH]; simpl.
  - reflexivity.
  - destruct (handler e) as [o | x] eqn:E; [now apply (Hq e) | reflexivity].
  - destruct (Rx.catch_trace handler rest wire); simpl in *. exact IH.
Qed.

End Pipeline.

Lemma sends_unique (res : completion Observable) (http : HttpClient.t)
    (h : value -> completion Observable) (r r' : request) :
  sends res http h r -> sends res http h r' -> quiet h -> r = r'.
Proof.
  intros (o & Ho & Hr) (o' & Ho' & Hr') Hq.
  rewrite Ho in Ho'. injection Ho' as <-.
  specialize (Hr []). specialize (Hr' []). rewrite Hr in Hr'.
  apply (f_equal snd) in Hr'. rewrite !catch_trace_quiet in Hr' by assumption.
  simpl in Hr'. now injection Hr'.
Qed.

Lemma handleError_quiet : quiet BaseService.handleError.
Proof.
  intros e o wire. unfold BaseService.handleError.
  destruct (JS.get e "message"); [| discriminate].
  intros H. injection H as <-. reflexivity.
Qed.

(* ===================================================================== *)
(** ** What each method hands to the transport *)
(* ===================================================================== *)

Ltac sends_by_pipeline :=
  eexists; split; [reflexivity | intros wire; apply pipe_send].

Section BaseVerbs.

Variable this : BaseService.t.
Let http := BaseService.this_http this.
Let h := BaseService.this_handleError this.

Lemma base_get_sends (path : string) (options : value) :
  sends (fst (BaseService.get path options this)) http h
    (mkRequest GET path None (default_arg options (VObj []))).
Proof. sends_by_pipeline. Qed.

Lemma base_post_sends (path : string) (body options : value) :
  sends (fst (BaseService.post path body options this)) http h
    (mkRequest POST path (Some body) (default_arg options (VObj []))).
Proof. sends_by_pipeline. Qed.

Lemma base_put_sends (path : string) (body options : value) :
  sends (fst (BaseService.put path body options this)) http h
    (mkRequest PUT path (Some body) (default_arg options (VObj []))).
Proof. sends_by_pipeline. Qed.

Lemma base_delete_sends (path : string) (options : value) :
  sends (fst (BaseService.delete path options this)) http h
    (mkRequest DELETE path None (default_arg options (VObj []))).
Proof. sends_by_pipeline. Qed.

End BaseVerbs.

Section ResourceMethods.

Variable this : RestService.t.
Let http := RestService.this_http this.
Let h := RestService.this_handleError this.
Let own_headers := VObj [("headers", RestService.this_headers this)].

Lemma get_sends (path : string) (options : value) :
  sends (fst (RestService.get path options this)) http h
    (mkRequest GET path None (default_arg options (VObj []))).
Proof. sends_by_pipeline. Qed.

Lemma post_sends (path : string) (body options : value) :
  sends (fst (RestService.post path body options this)) http h
    (mkRequest POST path (Some body) (default_arg options (VObj []))).
Proof. sends_by_pipeline. Qed.

Lemma put_sends (path : string) (body options : value) :
  sends (fst (RestService.put path body options this)) http h
    (mkRequest PUT path (Some body) (default_arg options (VObj []))).
Proof. sends_by_pipeline. Qed.

Lemma delete_sends (path : string) (options : value) :
  sends (fst (RestService.delete path options this)) http h
    (mkRequest DELETE path None (default_arg options (VObj []))).
Proof. sends_by_pipeline. Qed.

Lemma query_sends (options : value) (path : nullable string) :
  sends (fst (RestService.query options path this)) http h
    (mkRequest GET (effectivePath path this) None (default_arg options (VObj []))).
Proof. destruct path; sends_by_pipeline. Qed.

Lemma getAll_sends (path : nullable string) :
  sends (fst (RestService.getAll path this)) http h
    (mkRequest GET (effectivePath path this) None (VObj [])).
Proof. destruct path; sends_by_pipeline. Qed.

Lemma getOne_sends (id options : value) (path : nullable string) :
  sends (fst (RestService.getOne id options path this)) http h
    (mkRequest GET
       (effectivePath path this ++ (if neq_null id then "/" ++ to_string id else ""))
       None (default_arg options (VObj []))).
Proof. destruct path; sends_by_pipeline. Qed.

Lemma createOne_sends (model options : value) (path : nullable string) :
  sends (fst (RestService.createOne model options path this)) http h
    (mkRequest POST (effectivePath path this) (Some model)
       (default_arg options own_headers)).
Proof. destruct path; sends_by_pipeline. Qed.

Lemma updateOne_sends (model options id : value) (path : nullable string) :
  JS.get model "id" = Returns id ->
  sends (fst (RestService.updateOne model options path this)) http h
    (mkRequest PUT
       (effectivePath path this ++ (if neq_null id then "/" ++ to_string id else ""))
       (Some model) (default_arg options own_headers)).
Proof.
  intros Hid. unfold RestService.updateOne, bind, self, eval, ret.
  rewrite Hid. destruct (neq_null id); destruct path; sends_by_pipeline.
Qed.

Lemma updateOne_throws (model options : value) (path : nullable string) :
  is_nullish model = true ->
  fst (RestService.updateOne model options path this)
  = Throws (TypeError "id" model).
Proof. destruct model; simpl; intros H; try discriminate; reflexivity. Qed.

Lemma deleteOne_sends (id options : value) (path : nullable string) :
  sends (fst (RestService.deleteOne id options path this)) http h
    (mkRequest DELETE
       (effectivePath path this ++ (if neq_null id then "/" ++ to_string id else ""))
       None (default_arg options own_headers)).
Proof. destruct path; sends_by_pipeline. Qed.

End ResourceMethods.

Lemma get_defined (model : value) :
  is_nullish model = false -> exists id, JS.get model "id" = Returns id.
Proof. destruct model; simpl; intros H; try discriminate; eexists; reflexivity. Qed.

(** [(p + '/') + v] and [p + ('/' + v)] are the same string. *)
Lemma str_add_assoc (p : string) (v : value) :
  str_add (p ++ "/") v = (p ++ str_add "/" v)%string.
Proof.
  unfold str_add. generalize (to_string v) as s; intros s.
  induction p as [| c p IH]; simpl; [reflexivity | now rewrite IH].
Qed.

Lemma append_empty (p : string) : (p ++ "")%string = p.
Proof. induction p as [| c p IH]; simpl; [reflexivity | now rewrite IH]. Qed.

(* ===================================================================== *)
(** ** URL construction *)
(* ===================================================================== *)

Local Open Scope string_scope.

(** C1. Each of query, getAll, getOne, createOne, updateOne and deleteOne
    addresses its request to the explicit path when one is given (not null,
    not omitted) and to [getBaseUrlPath()] otherwise; the path is used as it
    is, whatever string it is, only the ['/' + id] suffix being added by the
    id-taking operations. *)
Theorem effective_path_of_every_operation
    (this : RestService.t) (options id model : value) (path : nullable string) :
  let http := RestService.this_http this in
  let h := RestService.this_handleError this in
  let own_headers := VObj [("headers", RestService.this_headers this)] in
  let P := match path with
           | Defined p => p
           | _ => RestService.this_getBaseUrlPath this tt
           end in
  let suffix (i : value) := if neq_null i then "/" ++ to_string i else "" in
  sends (fst (RestService.query options path this)) http h
    (mkRequest GET P None (default_arg options (VObj [])))
  /\ sends (fst (RestService.getAll path this)) http h
       (mkRequest GET P None (VObj []))
  /\ sends (fst (RestService.getOne id options path this)) http h
       (mkRequest GET (P ++ suffix id) None (default_arg options (VObj [])))
  /\ sends (fst (RestService.createOne model options path this)) http h
       (mkRequest POST P (Some model) (default_arg options own_headers))
  /\ (forall i, JS.get model "id" = Returns i ->
        sends (fst (RestService.updateOne model options path this)) http h
          (mkRequest PUT (P ++ suffix i) (Some model) (default_arg options own_headers)))
  /\ sends (fst (RestService.deleteOne id options path this)) http h
       (mkRequest DELETE (P ++ suffix id) None (default_arg options own_headers)).
Proof.
  intros http h own_headers P suffix.
  change P with (effectivePath path this).
  repeat split.
  - apply query_sends.
  - apply getAll_sends.
  - apply getOne_sends.
  - apply createOne_sends.
  - intros i Hi. now apply updateOne_sends.
  - apply deleteOne_sends.
Qed.

Lemma effective_path_witness :
  JS.get (article 7) "id" = Returns (VNum 7) /\
  sends (fst (RestService.updateOne (article 7) VUndefined (Defined "v2/articles")
                articleService))
    (answering (VStr "ok")) BaseService.handleError
    (mkRequest PUT "v2/articles/7" (Some (article 7)) json_headers).
Proof.
  split; [reflexivity |].
  exact (proj1 (proj2 (proj2 (proj2 (proj2
    (effective_path_of_every_operation articleService VUndefined VNull (article 7)
       (Defined "v2/articles"))))))
    (VNum 7) eq_refl).
Defined.

(** C2. For an id that is neither null nor undefined, getOne sends a GET and
    deleteOne a DELETE to [effectivePath + '/' + id]; for a null or
    undefined id both send their request to the bare effective path. *)
Theorem getOne_deleteOne_url
    (this : RestService.t) (i options : value) (path : nullable string) :
  let http := RestService.this_http this in
  let h := RestService.this_handleError this in
  let own_headers := VObj [("headers", RestService.this_headers this)] in
  let P := effectivePath path this in
  (neq_null i = true ->
     sends (fst (RestService.getOne i options path this)) http h
       (mkRequest GET (str_add (P ++ "/") i) None (default_arg options (VObj [])))
     /\ sends (fst (RestService.deleteOne i options path this)) http h
          (mkRequest DELETE (str_add (P ++ "/") i) None (default_arg options own_headers)))
  /\ (is_nullish i = true ->
       sends (fst (RestService.getOne i options path this)) http h
         (mkRequest GET P None (default_arg options (VObj [])))
       /\ sends (fst (RestService.deleteOne i options path this)) http h
            (mkRequest DELETE P None (default_arg options own_headers))).
Proof.
  intros http h own_headers P.
  pose proof (getOne_sends this i options path) as Hget.
  pose proof (deleteOne_sends this i options path) as Hdel.
  fold P in Hget, Hdel. split; intros Hi.
  - rewrite Hi in Hget, Hdel. rewrite str_add_assoc. now split.
  - unfold neq_null in Hget, Hdel. rewrite Hi in Hget, Hdel. simpl in Hget, Hdel.
    rewrite append_empty in Hget, Hdel. now split.
Qed.

Lemma getOne_deleteOne_url_witness :
  sends (fst (RestService.deleteOne (VNum 3) VUndefined Undefined articleService))
    (answering (VStr "ok")) BaseService.handleError
    (mkRequest DELETE "api/articles/3" None json_headers)
  /\ sends (fst (RestService.getOne VUndefined VUndefined Undefined articleService))
       (answering (VStr "ok")) BaseService.handleError
       (mkRequest GET "api/articles" None (VObj [])).
Proof.
  split.
  - exact (proj2 (proj1 (getOne_deleteOne_url articleService (VNum 3) VUndefined Undefined)
                    eq_refl)).
  - exact (proj1 (proj2 (getOne_deleteOne_url articleService VUndefined VUndefined Undefined)
                    eq_refl)).
Defined.

(** C3. For a model whose [id] is neither null nor undefined, updateOne
    sends a PUT to [effectivePath + '/' + model.id]; for a model whose [id]
    is undefined, to the bare effective path; for [model.id = 7] and no
    explicit path the URL is [getBaseUrlPath() + '/7']. *)
Theorem updateOne_url
    (this : RestService.t) (m i options : value) (path : nullable string) :
  JS.get m "id" = Returns i ->
  let http := RestService.this_http this in
  let h := RestService.this_handleError this in
  let opts := default_arg options (VObj [("headers", RestService.this_headers this)]) in
  let P := effectivePath path this in
  (neq_null i = true ->
     sends (fst (RestService.updateOne m options path this)) http h
       (mkRequest PUT (str_add (P ++ "/") i) (Some m) opts))
  /\ (i = VUndefined ->
       sends (fst (RestService.updateOne m options path this)) http h
         (mkRequest PUT P (Some m) opts))
  /\ (i = VNum 7 ->
       sends (fst (RestService.updateOne m options Undefined this)) http h
         (mkRequest PUT (RestService.this_getBaseUrlPath this tt ++ "/7") (Some m) opts)).
Proof.
  intros Hid http h opts P.
  pose proof (updateOne_sends this m options i path Hid) as Hput.
  fold P in Hput. repeat split.
  - intros Hi. rewrite Hi in Hput. now rewrite str_add_assoc.
  - intros ->. simpl in Hput. now rewrite append_empty in Hput.
  - intros ->. exact (updateOne_sends this m options (VNum 7) Undefined Hid).
Qed.

Lemma updateOne_url_witness :
  JS.get (article 7) "id" = Returns (VNum 7) /\
  sends (fst (RestService.updateOne (article 7) VUndefined Undefined articleService))
    (answering (VStr "ok")) BaseService.handleError
    (mkRequest PUT "api/articles/7" (Some (article 7)) json_headers).
Proof.
  split; [reflexivity |].
  exact (proj2 (proj2 (updateOne_url articleService (article 7) (VNum 7) VUndefined
                         Undefined eq_refl)) eq_refl).
Defined.

(** C10. updateOne sends the model itself as the body of its PUT, whether
    or not the model has an id that also goes into the URL. *)
Theorem updateOne_body
    (this : RestService.t) (m options : value) (path : nullable string) :
  is_nullish m = false ->
  exists r,
    sends (fst (RestService.updateOne m options path this))
      (RestService.this_http this) (RestService.this_handleError this) r
    /\ method r = PUT
    /\ body r = Some m
    /\ (forall i, JS.get m "id" = Returns i ->
          url r = (effectivePath path this
                   ++ (if neq_null i then "/" ++ to_string i else ""))%string).
Proof.
  intros Hm. destruct (get_defined m Hm) as [i Hi].
  eexists. split; [exact (updateOne_sends this m options i path Hi) |].
  simpl. repeat split. intros i' Hi'. rewrite Hi in Hi'. now injection Hi' as <-.
Qed.

Lemma updateOne_body_witness :
  exists r,
    sends (fst (RestService.updateOne (VObj [("name", VStr "draft")]) VUndefined Undefined
                  articleService))
      (answering (VStr "ok")) BaseService.handleError r
    /\ method r = PUT
    /\ body r = Some (VObj [("name", VStr "draft")])
    /\ (forall i, JS.get (VObj [("name", VStr "draft")]) "id" = Returns i ->
          url r = ("api/articles" ++ (if neq_null i then "/" ++ to_string i else ""))%string).
Proof.
  exact (updateOne_body articleService (VObj [("name", VStr "draft")]) VUndefined Undefined
           eq_refl).
Defined.

(* ===================================================================== *)
(** ** Default options *)
(* ===================================================================== *)

(** C5. Called without an options argument, createOne, updateOne and
    deleteOne send their request with the options
    [{headers: {'Content-Type': 'application/json'}}], createOne with the
    model as body; get, query, getAll and getOne send empty options. *)
Theorem default_options
    (cls : RestService.concrete) (http : HttpClient.t)
    (model id : value) (path : nullable string) (p : string) :
  let this := RestService.constructor cls http in
  let h := RestService.this_handleError this in
  let P := effectivePath path this in
  let suffix (i : value) := if neq_null i then "/" ++ to_string i else "" in
  sends (fst (RestService.createOne model VUndefined path this)) http h
    (mkRequest POST P (Some model) json_headers)
  /\ (is_nullish model = false ->
      exists u, sends (fst (RestService.updateOne model VUndefined path this)) http h
                  (mkRequest PUT u (Some model) json_headers))
  /\ sends (fst (RestService.deleteOne id VUndefined path this)) http h
       (mkRequest DELETE (P ++ suffix id) None json_headers)
  /\ sends (fst (RestService.get p VUndefined this)) http h
       (mkRequest GET p None (VObj []))
  /\ sends (fst (RestService.query VUndefined path this)) http h
       (mkRequest GET P None (VObj []))
  /\ sends (fst (RestService.getAll path this)) http h
       (mkRequest GET P None (VObj []))
  /\ sends (fst (RestService.getOne id VUndefined path this)) http h
       (mkRequest GET (P ++ suffix id) None (VObj [])).
Proof.
  intros this h P suffix. repeat split.
  - exact (createOne_sends this model VUndefined path).
  - intros Hm. destruct (get_defined model Hm) as [i Hi].
    eexists. exact (updateOne_sends this model VUndefined i path Hi).
  - exact (deleteOne_sends this id VUndefined path).
  - exact (get_sends this p VUndefined).
  - exact (query_sends this VUndefined path).
  - exact (getAll_sends this path).
  - exact (getOne_sends this id VUndefined path).
Qed.

Lemma default_options_witness :
  exists u,
    sends (fst (RestService.updateOne (article 7) VUndefined Undefined articleService))
      (answering (VStr "ok")) BaseService.handleError
      (mkRequest PUT u (Some (article 7)) json_headers).
Proof.
  exact (proj1 (proj2 (default_options ArticleService (answering (VStr "ok"))
                         (article 7) VNull Undefined "")) eq_refl).
Defined.

(* ===================================================================== *)
(** ** getAll *)
(* ===================================================================== *)

(** C6. getAll(path) is query({}, path): the same call result on every
    instance; its observable hands the transport one GET of the effective
    path with empty options and no body, and, the handler sending nothing of
    its own, that is the only request of a subscription. *)
Theorem getAll_is_query (this : RestService.t) (path : nullable string) :
  RestService.getAll path this = getAll_spec path this
  /\ sends (fst (RestService.getAll path this))
       (RestService.this_http this) (RestService.this_handleError this)
       (mkRequest GET (effectivePath path this) None (VObj []))
  /\ (quiet (RestService.this_handleError this) ->
      exists o, fst (RestService.getAll path this) = Returns o
        /\ forall wire,
             snd (o wire)
             = (wire ++ [mkRequest GET (effectivePath path this) None (VObj [])])%list).
Proof.
  repeat split.
  - now destruct path.
  - apply getAll_sends.
  - intros Hq. destruct (getAll_sends this path) as (o & Ho & Hsend).
    exists o. split; [exact Ho |]. intros wire.
    rewrite Hsend. now apply catch_trace_quiet.
Qed.

Lemma getAll_is_query_witness :
  exists o, fst (RestService.getAll Undefined articleService) = Returns o
    /\ forall wire,
         snd (o wire) = (wire ++ [mkRequest GET "api/articles" None (VObj [])])%list.
Proof.
  exact (proj2 (proj2 (getAll_is_query articleService Undefined)) handleError_quiet).
Defined.

(* ===================================================================== *)
(** ** Success *)
(* ===================================================================== *)

(** C9. When the transport answers the request of get, post, put or
    delete with the one value [v], the subscriber of that verb is notified
    of [v] as it is, then of completion, that one request having gone out:
    the [map] stage of the pipeline is the identity. *)
Theorem verbs_pass_success_through
    (this : BaseService.t) (path : string) (body options : value)
    (wire : list request) (v : value) :
  accepted options = true ->
  let http := BaseService.this_http this in
  let opts := default_arg options (VObj []) in
  (forall source w, Rx.map (fun response => response) source w = source w)
  /\ (exists o, fst (BaseService.get path options this) = Returns o
        /\ (HttpClient.backend http wire (mkRequest GET path None opts) = Next v Complete ->
            o wire = (Next v Complete, (wire ++ [mkRequest GET path None opts])%list)))
  /\ (exists o, fst (BaseService.post path body options this) = Returns o
        /\ (HttpClient.backend http wire (mkRequest POST path (Some body) opts)
            = Next v Complete ->
            o wire = (Next v Complete, (wire ++ [mkRequest POST path (Some body) opts])%list)))
  /\ (exists o, fst (BaseService.put path body options this) = Returns o
        /\ (HttpClient.backend http wire (mkRequest PUT path (Some body) opts)
            = Next v Complete ->
            o wire = (Next v Complete, (wire ++ [mkRequest PUT path (Some body) opts])%list)))
  /\ (exists o, fst (BaseService.delete path options this) = Returns o
        /\ (HttpClient.backend http wire (mkRequest DELETE path None opts)
            = Next v Complete ->
            o wire = (Next v Complete, (wire ++ [mkRequest DELETE path None opts])%list))).
Proof.
  intros _ http opts. split; [exact map_id |].
  repeat split.
  - destruct (base_get_sends this path options) as (o & Ho & Hs).
    exists o. split; [exact Ho |]. intros Hok. rewrite Hs. fold http opts. now rewrite Hok.
  - destruct (base_post_sends this path body options) as (o & Ho & Hs).
    exists o. split; [exact Ho |]. intros Hok. rewrite Hs. fold http opts. now rewrite Hok.
  - destruct (base_put_sends this path body options) as (o & Ho & Hs).
    exists o. split; [exact Ho |]. intros Hok. rewrite Hs. fold http opts. now rewrite Hok.
  - destruct (base_delete_sends this path options) as (o & Ho & Hs).
    exists o. split; [exact Ho |]. intros Hok. rewrite Hs. fold http opts. now rewrite Hok.
Qed.

Lemma verbs_pass_success_through_witness :
  exists o,
    fst (BaseService.post "api/articles/check" (article 1) VUndefined
           (BaseService.constructor None picky)) = Returns o
    /\ o [] = (Next (VNum 42) Complete,
               [mkRequest POST "api/articles/check" (Some (article 1)) (VObj [])]).
Proof.
  destruct (proj1 (proj2 (proj2
    (verbs_pass_success_through (BaseService.constructor None picky)
       "api/articles/check" (article 1) VUndefined [] (VNum 42) eq_refl))))
    as (o & Ho & Hv).
  exists o. split; [exact Ho | exact (Hv eq_refl)].
Defined.

(* ===================================================================== *)
(** ** Errors *)
(* ===================================================================== *)

(** C4, as stated, fails: an error whose [message] is present but empty
    fails with the error itself, not with its message. *)
Lemma handleError_empty_message_counterexample :
  let e := VObj [("message", VStr ""); ("status", VNum 500)] in
  has_own e "message" = true
  /\ JS.get e "message" = Returns (VStr "")
  /\ fst (Rx.catch_trace BaseService.handleError (Error e) []) = Error e
  /\ fst (Rx.catch_trace BaseService.handleError (Error e) []) <> Error (VStr "").
Proof. repeat split. discriminate. Qed.

(** C4, amended. Whatever error the transport delivers, the default
    handleError makes the subscriber fail, with nothing notified and nothing
    sent again; for an error other than null and undefined the failure is
    [error.message] when that is truthy and the error itself otherwise. *)
Theorem handleError_failure (e : value) (wire : list request) :
  (exists x, Rx.catch_trace BaseService.handleError (Error e) wire = (Error x, wire))
  /\ (is_nullish e = false ->
      exists m, JS.get e "message" = Returns m
        /\ Rx.catch_trace BaseService.handleError (Error e) wire
           = (Error (if truthy m then m else e), wire)).
Proof.
  split.
  - simpl. unfold BaseService.handleError.
    destruct (JS.get e "message") as [m | x]; eexists; reflexivity.
  - intros He. destruct e; try discriminate; eexists; split; reflexivity.
Qed.

Lemma handleError_failure_witness :
  exists m, JS.get (VObj [("status", VNum 500); ("message", VStr "Server Error")]) "message"
            = Returns m
    /\ Rx.catch_trace BaseService.handleError
         (Error (VObj [("status", VNum 500); ("message", VStr "Server Error")])) []
       = (Error (if truthy m then m
                 else VObj [("status", VNum 500); ("message", VStr "Server Error")]), []).
Proof.
  exact (proj2 (handleError_failure
                  (VObj [("status", VNum 500); ("message", VStr "Server Error")]) [])
           eq_refl).
Defined.

(** Every call that returns an observable hands one request to the
    instance's transport, with the instance's [handleError] as handler. *)
Lemma invoke_sends (this : RestService.t) (c : call) (o : Observable) :
  fst (invoke c this) = Returns o ->
  exists r, sends (fst (invoke c this))
              (RestService.this_http this) (RestService.this_handleError this) r.
Proof.
  destruct c; simpl; intros Ho; try (eexists;
    first [ apply get_sends | apply post_sends | apply put_sends | apply delete_sends
          | apply query_sends | apply getAll_sends | apply getOne_sends
          | apply createOne_sends | apply deleteOne_sends ]).
  match type of Ho with
  | fst (RestService.updateOne ?m ?opts ?p _) = _ =>
      destruct (JS.get m "id") as [i | x] eqn:Hid;
      [ eexists; exact (updateOne_sends this m opts i p Hid)
      | unfold RestService.updateOne, bind, self, eval in Ho; rewrite Hid in Ho;
        discriminate ]
  end.
Qed.





(* ===================================================================== *)
(** ** Frame *)
(* ===================================================================== *)

Section ReadOnly.

Context {S : Type}.

Lemma read_only_ret {A : Type} (a : A) : read_only (S := S) (ret a).
Proof. intros this. reflexivity. Qed.

Lemma read_only_self : read_only (S := S) self.
Proof. intros this. reflexivity. Qed.

Lemma read_only_eval {A : Type} (c : completion A) : read_only (S := S) (eval c).
Proof. intros this. reflexivity. Qed.

Lemma read_only_bind {A B : Type} (m : meth S A) (k : A -> meth S B) :
  read_only m -> (forall a, read_only (k a)) -> read_only (bind m k).
Proof.
  intros Hm Hk this. unfold bind.
  specialize (Hm this). destruct (m this) as [[a | e] this']; simpl in Hm; subst this'.
  - apply Hk.
  - reflexivity.
Qed.

Lemma read_only_inherited {S' A : Type} (super : S' -> S) (set_super : S -> S' -> S')
    (m : meth S A) :
  (forall this, set_super (super this) this = this) ->
  read_only m -> read_only (inherited super set_super m).
Proof.
  intros Hlens Hm this. unfold inherited.
  specialize (Hm (super this)). destruct (m (super this)) as [c base]; simpl in *.
  subst base. apply Hlens.
Qed.

End ReadOnly.

Lemma set_super_super (this : RestService.t) :
  RestService.set_super (RestService.super this) this = this.
Proof. now destruct this. Qed.

Ltac read_only_step :=
  first
    [ apply read_only_ret
    | apply read_only_self
    | apply read_only_eval
    | apply read_only_bind; [| intro]
    | apply read_only_inherited; [exact set_super_super |]
    | match goal with
      | |- read_only (if ?b then _ else _) => destruct b
      | |- read_only (match ?x with _ => _ end) => destruct x
      end
    | progress cbv zeta ].

Ltac read_only_solve := repeat read_only_step.

Lemma base_verbs_read_only (path : string) (body options : value) :
  read_only (BaseService.get path options)
  /\ read_only (BaseService.post path body options)
  /\ read_only (BaseService.put path body options)
  /\ read_only (BaseService.delete path options).
Proof.
  unfold BaseService.get, BaseService.post, BaseService.put, BaseService.delete.
  repeat split; read_only_solve.
Qed.

Lemma invoke_read_only (c : call) : read_only (invoke c).
Proof.
  destruct c; simpl;
    unfold RestService.get, RestService.post, RestService.put, RestService.delete,
      RestService.getAll, RestService.query, RestService.getOne, RestService.createOne,
      RestService.updateOne, RestService.deleteOne;
    try (apply read_only_inherited; [exact set_super_super |];
         first [ apply (base_verbs_read_only path VNull options)
               | apply (base_verbs_read_only path body options) ]);
    read_only_solve.
Qed.

(** C8. No operation changes the instance it is called on: its transport,
    its headers object and its base path are after the call what they were
    before.  An instance is therefore, after any calls, still the one its
    constructor made from its class and its transport, and a call returns
    what it would have returned had no call come before it; what its
    observable notifies of is computed from the transport's answer. *)
Theorem operations_leave_instance_unchanged :
  (forall (c : call) (this : RestService.t),
     snd (invoke c this) = this
     /\ RestService.this_http (snd (invoke c this)) = RestService.this_http this
     /\ RestService.this_headers (snd (invoke c this)) = RestService.this_headers this
     /\ RestService.this_getBaseUrlPath (snd (invoke c this))
        = RestService.this_getBaseUrlPath this)
  /\ (forall (cs : list call) (cls : RestService.concrete) (http : HttpClient.t),
        invoke_all cs (RestService.constructor cls http) = RestService.constructor cls http)
  /\ (forall (c1 c2 : call) (this : RestService.t),
        fst (invoke c2 (snd (invoke c1 this))) = fst (invoke c2 this))
  /\ (forall (c : call) (this : RestService.t) (o : Observable),
        fst (invoke c this) = Returns o ->
        exists r, forall wire,
          o wire = Rx.catch_trace (RestService.this_handleError this)
                     (HttpClient.backend (RestService.this_http this) wire r)
                     (wire ++ [r])%list).
Proof.
  split; [| split; [| split]].
  - intros c this. rewrite (invoke_read_only c this). repeat split.
  - intros cs cls http. induction cs as [| c cs IH]; simpl; [reflexivity |].
    now rewrite (invoke_read_only c).
  - intros c1 c2 this. now rewrite (invoke_read_only c1 this).
  - intros c this o Ho.
    destruct (invoke_sends this c o Ho) as (r & o' & Ho' & Hs).
    rewrite Ho in Ho'. injection Ho' as <-. now exists r.
Qed.

Lemma operations_leave_instance_unchanged_witness :
  exists r, forall wire,
    Rx.pipe (HttpClient.get (answering (VStr "ok")) "api/articles" (VObj []))
      [Rx.map (fun response => response); Rx.catchError BaseService.handleError] wire
    = Rx.catch_trace BaseService.handleError
        (HttpClient.backend (answering (VStr "ok")) wire r) (wire ++ [r])%list.
Proof.
  exact (proj2 (proj2 (proj2 operations_leave_instance_unchanged))
           (GetAll Undefined) articleService _ eq_refl).
Defined.

(* ===================================================================== *)
(** ** Further properties of the two classes *)
(* ===================================================================== *)

Lemma default_arg_given (options dflt : value) :
  options <> VUndefined -> default_arg options dflt = options.
Proof. destruct options; simpl; intros H; [now contradiction H | | | | |]; reflexivity. Qed.

Lemma default_handler (cls : RestService.concrete) (http : HttpClient.t) :
  RestService.handleError cls = None ->
  RestService.this_handleError (RestService.constructor cls http)
  = BaseService.handleError.
Proof.
  destruct cls as [base override]; simpl. intros ->. reflexivity.
Qed.

Lemma catch_trace_success (handler : value -> completion Observable)
    (t : trace) (wire : list request) :
  failure t = None -> Rx.catch_trace handler t wire = (t, wire).
Proof.
  induction t as [| e | v rest IH]; simpl; intros H.
  - reflexivity.
  - discriminate.
  - now rewrite (IH H).
Qed.

Lemma sends_same (a b : completion Observable) (http : HttpClient.t)
    (h : value -> completion Observable) (r : request) :
  sends a http h r -> sends b http h r -> same_observable a b.
Proof.
  intros (o1 & -> & H1) (o2 & -> & H2) wire. now rewrite H1, H2.
Qed.

(** X1. Options that are given are the options sent: every operation passes
    them to the transport as they are, [null] included, and adds no header
    of its own to them. *)
Theorem explicit_options_verbatim
    (this : RestService.t) (options model id body : value)
    (path : nullable string) (p : string) :
  options <> VUndefined ->
  let http := RestService.this_http this in
  let h := RestService.this_handleError this in
  let P := effectivePath path this in
  let suffix (i : value) := if neq_null i then "/" ++ to_string i else "" in
  sends (fst (RestService.createOne model options path this)) http h
    (mkRequest POST P (Some model) options)
  /\ (forall i, JS.get model "id" = Returns i ->
        sends (fst (RestService.updateOne model options path this)) http h
          (mkRequest PUT (P ++ suffix i) (Some model) options))
  /\ sends (fst (RestService.deleteOne id options path this)) http h
       (mkRequest DELETE (P ++ suffix id) None options)
  /\ sends (fst (RestService.query options path this)) http h
       (mkRequest GET P None options)
  /\ sends (fst (RestService.getOne id options path this)) http h
       (mkRequest GET (P ++ suffix id) None options)
  /\ sends (fst (RestService.get p options this)) http h (mkRequest GET p None options)
  /\ sends (fst (RestService.post p body options this)) http h
       (mkRequest POST p (Some body) options)
  /\ sends (fst (RestService.put p body options this)) http h
       (mkRequest PUT p (Some body) options)
  /\ sends (fst (RestService.delete p options this)) http h
       (mkRequest DELETE p None options).
Proof.
  intros Hgiven http h P suffix.
  pose proof (createOne_sends this model options path) as Hc.
  pose proof (deleteOne_sends this id options path) as Hd.
  pose proof (query_sends this options path) as Hq.
  pose proof (getOne_sends this id options path) as Hg.
  pose proof (get_sends this p options) as Hget.
  pose proof (post_sends this p body options) as Hpost.
  pose proof (put_sends this p body options) as Hput.
  pose proof (delete_sends this p options) as Hdel.
  rewrite default_arg_given in Hc, Hd, Hq, Hg, Hget, Hpost, Hput, Hdel by assumption.
  repeat split; try assumption.
  intros i Hi. pose proof (updateOne_sends this model options i path Hi) as Hu.
  now rewrite default_arg_given in Hu by assumption.
Qed.

Lemma explicit_options_verbatim_witness :
  sends (fst (RestService.createOne (article 1) VNull Undefined articleService))
    (answering (VStr "ok")) BaseService.handleError
    (mkRequest POST "api/articles" (Some (article 1)) VNull).
Proof.
  refine (proj1 (explicit_options_verbatim articleService VNull (article 1) VNull VNull
                   Undefined "" _)).
  discriminate.
Defined.

(** X2. Each resource operation is, to its subscribers, the inherited verb
    called on the URL the operation builds: query and getOne are [get],
    createOne is [post], updateOne is [put] and deleteOne is [delete], the
    last three with the headers default put in for omitted options. *)
Theorem operations_are_verbs
    (this : RestService.t) (options model id : value) (path : nullable string) :
  let own_headers := VObj [("headers", RestService.this_headers this)] in
  let P := effectivePath path this in
  let suffix (i : value) := if neq_null i then "/" ++ to_string i else "" in
  same_observable (fst (RestService.query options path this))
    (fst (RestService.get P options this))
  /\ same_observable (fst (RestService.getAll path this))
       (fst (RestService.get P VUndefined this))
  /\ same_observable (fst (RestService.getOne id options path this))
       (fst (RestService.get (P ++ suffix id) options this))
  /\ same_observable (fst (RestService.createOne model options path this))
       (fst (RestService.post P model (default_arg options own_headers) this))
  /\ (forall i, JS.get model "id" = Returns i ->
        same_observable (fst (RestService.updateOne model options path this))
          (fst (RestService.put (P ++ suffix i) model (default_arg options own_headers)
                  this)))
  /\ same_observable (fst (RestService.deleteOne id options path this))
       (fst (RestService.delete (P ++ suffix id) (default_arg options own_headers) this)).
Proof.
  intros own_headers P suffix.
  assert (Hidem : default_arg (default_arg options own_headers) (VObj [])
                  = default_arg options own_headers) by now destruct options.
  repeat split.
  - eapply sends_same; [apply query_sends | apply get_sends].
  - eapply sends_same; [apply getAll_sends | apply get_sends].
  - eapply sends_same; [apply getOne_sends | apply get_sends].
  - eapply sends_same; [apply createOne_sends |].
    pose proof (post_sends this P model (default_arg options own_headers)) as H.
    now rewrite Hidem in H.
  - intros i Hi.
    eapply sends_same; [exact (updateOne_sends this model options i path Hi) |].
    pose proof (put_sends this (P ++ suffix i) model (default_arg options own_headers)) as H.
    now rewrite Hidem in H.
  - eapply sends_same; [apply deleteOne_sends |].
    pose proof (delete_sends this (P ++ suffix id) (default_arg options own_headers)) as H.
    now rewrite Hidem in H.
Qed.

Lemma operations_are_verbs_witness :
  same_observable
    (fst (RestService.updateOne (article 7) VUndefined Undefined articleService))
    (fst (RestService.put "api/articles/7" (article 7) json_headers articleService)).
Proof.
  exact (proj1 (proj2 (proj2 (proj2 (proj2
    (operations_are_verbs articleService VUndefined (article 7) VNull Undefined)))))
    (VNum 7) eq_refl).
Defined.

(** X3. updateOne given [null] or [undefined] for a model throws a
    TypeError at the call, on reading [model['id']], whatever the options,
    the path, the transport and the handler are: no observable is returned
    and the instance is left as it was.  createOne given the same model and
    no options returns an observable that posts it. *)
Theorem updateOne_of_null_throws
    (this : RestService.t) (model options : value) (path : nullable string) :
  is_nullish model = true ->
  (exists x,
     RestService.updateOne model options path this = (Throws x, this)
     /\ JS.get x "name" = Returns (VStr "TypeError"))
  /\ sends (fst (RestService.createOne model VUndefined path this))
       (RestService.this_http this) (RestService.this_handleError this)
       (mkRequest POST (effectivePath path this) (Some model)
          (VObj [("headers", RestService.this_headers this)])).
Proof.
  intros Hm. split.
  - destruct model; try discriminate; eexists; split; reflexivity.
  - exact (createOne_sends this model VUndefined path).
Qed.

Lemma updateOne_of_null_throws_witness :
  exists x,
    RestService.updateOne VNull VUndefined Undefined articleService
    = (Throws x, articleService)
    /\ JS.get x "name" = Returns (VStr "TypeError").
Proof.
  exact (proj1 (updateOne_of_null_throws articleService VNull VUndefined Undefined eq_refl)).
Defined.

Lemma resubscribe_step (n : nat) (o : Observable) (wire : list request) :
  resubscribe (S n) o wire
  = (fst (o wire) :: fst (resubscribe n o (snd (o wire))),
     snd (resubscribe n o (snd (o wire)))).
Proof.
  simpl. destruct (o wire) as [t wire']. simpl.
  now destruct (resubscribe n o wire').
Qed.

(** X4. Every subscription to the observable of a call puts the call's request
    on the wire once more, and nothing else: answers are not kept for later
    subscribers, and a failed request is not sent again (the handler being
    BaseService's, or any that sends nothing itself). *)
Theorem one_request_per_subscription
    (this : RestService.t) (c : call) (o : Observable) :
  quiet (RestService.this_handleError this) ->
  fst (invoke c this) = Returns o ->
  exists r, forall n wire,
    snd (resubscribe n o wire) = (wire ++ repeat r n)%list
    /\ List.length (fst (resubscribe n o wire)) = n.
Proof.
  intros Hq Ho.
  destruct (invoke_sends this c o Ho) as (r & o' & Ho' & Hs).
  rewrite Ho in Ho'. injection Ho' as <-.
  exists r. induction n as [| n IH]; intros wire.
  - simpl. now rewrite app_nil_r.
  - rewrite resubscribe_step. simpl.
    destruct (IH (snd (o wire))) as [IHw IHl]. rewrite IHw, IHl.
    rewrite Hs, catch_trace_quiet by assumption.
    now rewrite <- app_assoc.
Qed.

Lemma one_request_per_subscription_witness :
  exists r, forall n wire,
    snd (resubscribe n
           (Rx.pipe (HttpClient.get (failing (VObj [("status", VNum 500);
                                                    ("message", VStr "Server Error")]))
                       "api/articles" (VObj []))
              [Rx.map (fun response => response); Rx.catchError BaseService.handleError])
           wire)
    = (wire ++ repeat r n)%list
    /\ List.length
         (fst (resubscribe n
                 (Rx.pipe (HttpClient.get (failing (VObj [("status", VNum 500);
                                                          ("message", VStr "Server Error")]))
                             "api/articles" (VObj []))
                    [Rx.map (fun response => response);
                     Rx.catchError BaseService.handleError])
                 wire)) = n.
Proof.
  exact (one_request_per_subscription failingService (GetAll Undefined) _
           handleError_quiet eq_refl).
Defined.

(** X5. An answer of the transport that does not end in an error reaches the
    subscriber of every operation exactly as the transport gave it, whatever
    the instance's handleError is: the handler is not consulted. *)
Theorem success_reaches_subscriber_unchanged
    (this : RestService.t) (c : call) (o : Observable) :
  fst (invoke c this) = Returns o ->
  exists r, forall wire,
    failure (HttpClient.backend (RestService.this_http this) wire r) = None ->
    o wire = (HttpClient.backend (RestService.this_http this) wire r, (wire ++ [r])%list).
Proof.
  intros Ho.
  destruct (invoke_sends this c o Ho) as (r & o' & Ho' & Hs).
  rewrite Ho in Ho'. injection Ho' as <-.
  exists r. intros wire Hok. rewrite Hs. now apply catch_trace_success.
Qed.

Lemma success_reaches_subscriber_unchanged_witness :
  exists r, forall wire,
    Rx.pipe (HttpClient.delete (answering (VStr "ok")) "api/articles/3" json_headers)
      [Rx.map (fun response => response); Rx.catchError BaseService.handleError] wire
    = (Next (VStr "ok") Complete, (wire ++ [r])%list).
Proof.
  destruct (success_reaches_subscriber_unchanged articleService
              (DeleteOne (VNum 3) VUndefined Undefined) _ eq_refl) as [r Hr].
  exists r. intros wire. exact (Hr wire eq_refl).
Defined.

(** X6. When the transport fails with [null] or [undefined], BaseService's
    handleError throws on reading [error.message], and the subscriber fails
    with that TypeError in place of the transport's error. *)
Theorem null_error_becomes_TypeError
    (cls : RestService.concrete) (http : HttpClient.t) (c : call) (o : Observable) :
  RestService.handleError cls = None ->
  fst (invoke c (RestService.constructor cls http)) = Returns o ->
  exists r, forall wire vs e,
    is_nullish e = true ->
    HttpClient.backend http wire r = emits vs (Error e) ->
    o wire = (emits vs (Error (TypeError "message" e)), (wire ++ [r])%list).
Proof.
  intros Hcls Ho.
  destruct (invoke_sends _ c o Ho) as (r & o' & Ho' & Hs).
  rewrite Ho in Ho'. injection Ho' as <-.
  exists r. intros wire vs e He Hfail.
  rewrite Hs, default_handler by assumption.
  change (RestService.this_http (RestService.constructor cls http)) with http.
  rewrite Hfail, catch_trace_emits.
  destruct e; try discriminate; reflexivity.
Qed.

Lemma null_error_becomes_TypeError_witness :
  exists r,
    Rx.pipe (HttpClient.get (failing VNull) "api/articles/5" (VObj []))
      [Rx.map (fun response => response); Rx.catchError BaseService.handleError] []
    = (Error (TypeError "message" VNull), [r]).
Proof.
  destruct (null_error_becomes_TypeError ArticleService (failing VNull)
              (GetOne (VNum 5) VUndefined Undefined) _ eq_refl eq_refl) as [r Hr].
  exists r. exact (Hr [] [] VNull eq_refl eq_refl).
Defined.

Lemma handleError_primitive (e : value) (wire : list request) :
  primitive e = true ->
  Rx.catch_trace BaseService.handleError (Error e) wire = (Error e, wire).
Proof. destruct e; try discriminate; reflexivity. Qed.

(** X7. BaseService's handleError fails with a boolean, number or string
    error as it is.  So when the [message] of an error is not itself an
    object, handling the failure a second time changes nothing. *)
Theorem handleError_twice (e m x : value) (wire : list request) :
  (primitive e = true ->
   Rx.catch_trace BaseService.handleError (Error e) wire = (Error e, wire))
  /\ (JS.get e "message" = Returns m ->
      (forall fields, m <> VObj fields) ->
      Rx.catch_trace BaseService.handleError (Error e) wire = (Error x, wire) ->
      Rx.catch_trace BaseService.handleError (Error x) wire = (Error x, wire)).
Proof.
  split; [apply handleError_primitive |].
  intros Hm Hobj H1. pose proof H1 as H2.
  simpl in H2. unfold BaseService.handleError in H2. rewrite Hm in H2.
  unfold Rx.throwError, JS.or in H2. injection H2 as H2.
  destruct (truthy m) eqn:Ht.
  - subst x. apply handleError_primitive.
    destruct m; try discriminate; try reflexivity. now contradiction (Hobj fields).
  - now subst x.
Qed.

Lemma handleError_twice_witness :
  Rx.catch_trace BaseService.handleError (Error (VStr "Server Error")) []
  = (Error (VStr "Server Error"), []).
Proof.
  refine (proj2 (handleError_twice
                   (VObj [("status", VNum 500); ("message", VStr "Server Error")])
                   (VStr "Server Error") (VStr "Server Error") []) eq_refl _ eq_refl).
  discriminate.
Defined.

Lemma append_inj_l (p s1 s2 : string) : p ++ s1 = p ++ s2 -> s1 = s2.
Proof.
  induction p as [| ch p IH]; simpl; intros H; [exact H |].
  injection H as H. now apply IH.
Qed.

Lemma append_self (p s : string) : p ++ s = p -> s = "".
Proof.
  induction p as [| ch p IH]; simpl; intros H; [exact H |].
  injection H as H. now apply IH.
Qed.

Lemma to_int_not_nil (z : Z) :
  Z.to_int z <> Decimal.Pos Decimal.Nil /\ Z.to_int z <> Decimal.Neg Decimal.Nil.
Proof.
  destruct z; simpl; split; try discriminate; intros H; injection H as H;
    now apply DecimalPos.Unsigned.to_uint_nonnil in H.
Qed.

Lemma to_string_num_inj (a b : Z) : to_string (VNum a) = to_string (VNum b) -> a = b.
Proof.
  simpl. intros H. apply DecimalZ.to_int_inj.
  apply (f_equal NilZero.int_of_string) in H.
  destruct (to_int_not_nil a), (to_int_not_nil b).
  rewrite !NilZero.isi in H by assumption. now injection H.
Qed.

(** X8. On a service whose handler sends nothing itself, and under one
    effective path, getOne and deleteOne address different safe-integer ids
    at different URLs, and an id that is neither null nor undefined never at
    the collection's own URL. *)
Theorem ids_address_distinct_urls
    (this : RestService.t) (options options' : value) (path : nullable string) :
  quiet (RestService.this_handleError this) ->
  let http := RestService.this_http this in
  let h := RestService.this_handleError this in
  (forall a b ra rb,
     safe_integer a = true -> safe_integer b = true -> a <> b ->
     sends (fst (RestService.getOne (VNum a) options path this)) http h ra ->
     sends (fst (RestService.getOne (VNum b) options' path this)) http h rb ->
     url ra <> url rb)
  /\ (forall a b ra rb,
        safe_integer a = true -> safe_integer b = true -> a <> b ->
        sends (fst (RestService.deleteOne (VNum a) options path this)) http h ra ->
        sends (fst (RestService.deleteOne (VNum b) options' path this)) http h rb ->
        url ra <> url rb)
  /\ (forall i r, neq_null i = true ->
        (sends (fst (RestService.getOne i options path this)) http h r
         \/ sends (fst (RestService.deleteOne i options path this)) http h r) ->
        url r <> effectivePath path this).
Proof.
  intros Hq http h. repeat split.
  - intros a b ra rb _ _ Hab Ha Hb Hurl. apply Hab.
    rewrite (sends_unique _ _ _ _ _ Ha (getOne_sends this (VNum a) options path) Hq) in Hurl.
    rewrite (sends_unique _ _ _ _ _ Hb (getOne_sends this (VNum b) options' path) Hq) in Hurl.
    simpl in Hurl. apply append_inj_l in Hurl. injection Hurl as Hurl.
    now apply to_string_num_inj.
  - intros a b ra rb _ _ Hab Ha Hb Hurl. apply Hab.
    rewrite (sends_unique _ _ _ _ _ Ha (deleteOne_sends this (VNum a) options path) Hq)
      in Hurl.
    rewrite (sends_unique _ _ _ _ _ Hb (deleteOne_sends this (VNum b) options' path) Hq)
      in Hurl.
    simpl in Hurl. apply append_inj_l in Hurl. injection Hurl as Hurl.
    now apply to_string_num_inj.
  - intros i r Hi [Hs | Hs] Hurl.
    + rewrite (sends_unique _ _ _ _ _ Hs (getOne_sends this i options path) Hq) in Hurl.
      simpl in Hurl. rewrite Hi in Hurl. apply append_self in Hurl. discriminate.
    + rewrite (sends_unique _ _ _ _ _ Hs (deleteOne_sends this i options path) Hq) in Hurl.
      simpl in Hurl. rewrite Hi in Hurl. apply append_self in Hurl. discriminate.
Qed.

Lemma ids_address_distinct_urls_witness :
  url (mkRequest GET "api/articles/5" None (VObj []))
  <> url (mkRequest GET "api/articles/7" None VNull)
  /\ url (mkRequest DELETE "api/articles/5" None json_headers) <> "api/articles".
Proof.
  split.
  - refine (proj1 (ids_address_distinct_urls articleService VUndefined VNull Undefined
                     handleError_quiet)
              5%Z 7%Z _ _ eq_refl eq_refl _
              (getOne_sends articleService (VNum 5) VUndefined Undefined)
              (getOne_sends articleService (VNum 7) VNull Undefined)).
    discriminate.
  - exact (proj2 (proj2 (ids_address_distinct_urls articleService VUndefined VNull Undefined
                           handleError_quiet))
             (VNum 5) _ eq_refl
             (or_intror (deleteOne_sends articleService (VNum 5) VUndefined Undefined))).
Defined.

(** X9. On a service whose handler sends nothing itself, the requests of
    two calls reach the transport in the order in which the two observables
    are subscribed to, whichever call was made first, and the later
    subscriber gets the answer the back end gives after the earlier
    request. *)
Theorem requests_follow_subscriptions
    (this : RestService.t) (c1 c2 : call) (o1 o2 : Observable) :
  quiet (RestService.this_handleError this) ->
  fst (invoke c1 this) = Returns o1 ->
  fst (invoke c2 (snd (invoke c1 this))) = Returns o2 ->
  exists r1 r2, forall wire,
    snd (o2 (snd (o1 wire))) = (wire ++ [r1; r2])%list
    /\ snd (o1 (snd (o2 wire))) = (wire ++ [r2; r1])%list
    /\ fst (o2 (snd (o1 wire)))
       = fst (Rx.catch_trace (RestService.this_handleError this)
                (HttpClient.backend (RestService.this_http this) (wire ++ [r1])%list r2)
                (wire ++ [r1; r2])%list)
    /\ fst (o1 (snd (o2 wire)))
       = fst (Rx.catch_trace (RestService.this_handleError this)
                (HttpClient.backend (RestService.this_http this) (wire ++ [r2])%list r1)
                (wire ++ [r2; r1])%list).
Proof.
  intros Hq H1 H2. rewrite (invoke_read_only c1 this) in H2.
  destruct (invoke_sends this c1 o1 H1) as (r1 & o1' & E1 & S1).
  destruct (invoke_sends this c2 o2 H2) as (r2 & o2' & E2 & S2).
  rewrite H1 in E1. injection E1 as <-. rewrite H2 in E2. injection E2 as <-.
  exists r1, r2. intros wire.
  assert (W1 : forall w, snd (o1 w) = (w ++ [r1])%list)
    by (intros w; rewrite S1; now apply catch_trace_quiet).
  assert (W2 : forall w, snd (o2 w) = (w ++ [r2])%list)
    by (intros w; rewrite S2; now apply catch_trace_quiet).
  rewrite !W1, !W2, <- !app_assoc. simpl.
  split; [reflexivity |]. split; [reflexivity |].
  rewrite S1, S2, <- !app_assoc. simpl. split; reflexivity.
Qed.

Lemma requests_follow_subscriptions_witness :
  exists r1 r2, forall wire,
    snd (Rx.pipe (HttpClient.get picky "api/articles/check" (VObj []))
           [Rx.map (fun response => response); Rx.catchError BaseService.handleError]
           (snd (Rx.pipe (HttpClient.post picky "api/articles" (article 1) json_headers)
                   [Rx.map (fun response => response);
                    Rx.catchError BaseService.handleError] wire)))
    = (wire ++ [r1; r2])%list
    /\ snd (Rx.pipe (HttpClient.post picky "api/articles" (article 1) json_headers)
              [Rx.map (fun response => response); Rx.catchError BaseService.handleError]
              (snd (Rx.pipe (HttpClient.get picky "api/articles/check" (VObj []))
                      [Rx.map (fun response => response);
                       Rx.catchError BaseService.handleError] wire)))
       = (wire ++ [r2; r1])%list.
Proof.
  destruct (requests_follow_subscriptions
              (RestService.constructor ArticleService picky)
              (CreateOne (article 1) VUndefined Undefined)
              (Get "api/articles/check" VUndefined) _ _
              handleError_quiet eq_refl eq_refl) as (r1 & r2 & H).
  exists r1, r2. intros wire. destruct (H wire) as (Ha & Hb & _).
  split; [exact Ha | exact Hb].
Defined.
